(** * Textarea: the textarea editor of textcomplete (src/textarea.js)

    A shallow embedding of the [Textarea] class and of the part of the
    browser it talks to: the element it wraps (an object of the page, held
    by reference), the listener list of that element, the document, and
    the notifications the editor emits to the completion engine. *)

From Stdlib Require Import PrimFloat.
From stdpp Require Import gmap strings list.

(** ** JavaScript strings

    A JavaScript string is a sequence of UTF-16 code units; [length] and
    [substring] count code units. *)

Definition code_unit := N.
Definition jsstring := list code_unit.

(** The string literal [s] of the source, for literals in the ASCII range. *)
Definition utf16 (s : string) : jsstring :=
  Ascii.N_of_ascii <$> String.list_ascii_of_string s.

(** [String.prototype.substring(indexStart, indexEnd)] on non-negative
    integer arguments: both ends are clamped to the length, a missing end is
    the length, and the two are swapped when the start is the larger. *)
Definition substring (s : jsstring) (indexStart : nat) (indexEnd : option nat)
  : jsstring :=
  let len := length s in
  let intEnd := default len indexEnd in
  let finalStart := indexStart `min` len in
  let finalEnd := intEnd `min` len in
  let from := finalStart `min` finalEnd in
  let to := finalStart `max` finalEnd in
  take (to - from) (drop from s).

(** ** Completions: a call returns normally or throws *)

Inductive Exn := TypeError.

Inductive completion (A : Type) :=
  | Normal (a : A)
  | Throw (e : Exn).
Arguments Normal {A} a.
Arguments Throw {A} e.

(** A computation over a mutable state [S]; the state reached is kept when
    the computation throws, since the writes made before the throw stay. *)
Definition JS (S A : Type) : Type := S -> completion A * S.

Definition ret {S A} (a : A) : JS S A := fun s => (Normal a, s).

Definition bind {S A B} (m : JS S A) (k : A -> JS S B) : JS S B :=
  fun s =>
    match m s with
    | (Normal a, s') => k a s'
    | (Throw e, s') => (Throw e, s')
    end.

Definition throw {S A} (e : Exn) : JS S A := fun s => (Throw e, s).

Notation "x <- m ;; k" := (bind m (fun x => k))
  (at level 100, m at next level, right associativity).
Notation "m ;;; k" := (bind m (fun _ => k))
  (at level 100, right associativity).

(** ** The page *)

Definition loc := positive.

(** The three methods bound in the constructor ([CALLBACK_METHODS]). *)
Inductive Method := CB_onInput | CB_onKeydown | CB_onKeyup.

(** A registered callback: one of the editor's bound methods, or a function of
    the host page. Of what such a function does, the model keeps what decides
    whether the callbacks registered after it run: whether it stops the
    propagation of the event at once. *)
Inductive Callback :=
  | BoundMethod (m : Method)
  | HostFunction (id : nat).

#[global] Instance Method_eq_dec : EqDecision Method.
Proof. solve_decision. Defined.
#[global] Instance Callback_eq_dec : EqDecision Callback.
Proof. solve_decision. Defined.

(** The fields of [HTMLTextAreaElement] the class reads and writes, and what
    the browser keeps of the element that decides how it answers: [value] is
    the value as the getter hands it out, and [focusable] tells whether the
    element is a focusable area (in the document, rendered, not disabled). *)
Record HTMLTextAreaElement := {
  value : jsstring;
  selectionStart : nat;
  selectionEnd : nat;
  dir : string;
  scrollTop : float;
  scrollLeft : float;
  focusable : bool;
  listeners : list (string * Callback)
}.

(** The element with one field replaced, the others kept. These are plain
    record updates; what an assignment to a property of the element does is
    given by the setters below. *)
Definition with_value (v : jsstring) (e : HTMLTextAreaElement) :=
  {| value := v; selectionStart := selectionStart e;
     selectionEnd := selectionEnd e; dir := dir e; scrollTop := scrollTop e;
     scrollLeft := scrollLeft e; focusable := focusable e;
     listeners := listeners e |}.

Definition with_selectionStart (n : nat) (e : HTMLTextAreaElement) :=
  {| value := value e; selectionStart := n;
     selectionEnd := selectionEnd e; dir := dir e; scrollTop := scrollTop e;
     scrollLeft := scrollLeft e; focusable := focusable e;
     listeners := listeners e |}.

Definition with_selectionEnd (n : nat) (e : HTMLTextAreaElement) :=
  {| value := value e; selectionStart := selectionStart e;
     selectionEnd := n; dir := dir e; scrollTop := scrollTop e;
     scrollLeft := scrollLeft e; focusable := focusable e;
     listeners := listeners e |}.

Definition with_listeners (ls : list (string * Callback))
    (e : HTMLTextAreaElement) :=
  {| value := value e; selectionStart := selectionStart e;
     selectionEnd := selectionEnd e; dir := dir e; scrollTop := scrollTop e;
     scrollLeft := scrollLeft e; focusable := focusable e;
     listeners := ls |}.

(** [EventTarget.addEventListener]: a callback already registered for the type
    is not registered again. *)
Definition addEventListener (type : string) (cb : Callback)
    (e : HTMLTextAreaElement) : HTMLTextAreaElement :=
  if bool_decide ((type, cb) ∈ listeners e) then e
  else with_listeners (listeners e ++ [(type, cb)]) e.

(** [EventTarget.removeEventListener]: the registration of this callback for
    this type is dropped, the others stay. *)
Definition removeEventListener (type : string) (cb : Callback)
    (e : HTMLTextAreaElement) : HTMLTextAreaElement :=
  with_listeners (filter (fun r => r ≠ (type, cb)) (listeners e)) e.

(** The line breaks of a textarea's value as the getter hands it out: each
    CR LF pair and each remaining CR is one LF. *)
Fixpoint normalize_newlines (s : jsstring) : jsstring :=
  match s with
  | [] => []
  | c :: rest =>
      if N.eqb c 13 then
        10%N :: match rest with
                | c' :: rest' =>
                    if N.eqb c' 10 then normalize_newlines rest'
                    else normalize_newlines rest
                | [] => []
                end
      else c :: normalize_newlines rest
  end.

(** The setter of [value]: the value read back is the assigned one with its
    line breaks normalised; when that differs from the value before, the
    caret moves to the end of the text and nothing is selected. *)
Definition set_value (v : jsstring) (e : HTMLTextAreaElement)
  : HTMLTextAreaElement :=
  let v' := normalize_newlines v in
  if bool_decide (v' = value e) then e
  else with_selectionStart (length v')
         (with_selectionEnd (length v') (with_value v' e)).

(** The browser's "set the selection range": offsets past the end of the
    text point at the end, and an end at or before the start puts both at
    the end. *)
Definition setSelectionRange (start end_ : nat) (e : HTMLTextAreaElement)
  : HTMLTextAreaElement :=
  let len := length (value e) in
  let start' := start `min` len in
  let end' := end_ `min` len in
  if bool_decide (end' <= start')
  then with_selectionStart end' (with_selectionEnd end' e)
  else with_selectionStart start' (with_selectionEnd end' e).

(** The setter of [selectionEnd] keeps the start. *)
Definition set_selectionEnd (n : nat) (e : HTMLTextAreaElement)
  : HTMLTextAreaElement :=
  setSelectionRange (selectionStart e) n e.

(** The setter of [selectionStart] keeps the end, or moves it up to the new
    start when it lies before it. *)
Definition set_selectionStart (n : nat) (e : HTMLTextAreaElement)
  : HTMLTextAreaElement :=
  let end_ := selectionEnd e in
  setSelectionRange n (if bool_decide (end_ < n) then n else end_) e.

(** [{top, left}], in pixels. *)
Module Offset.
Record t := { top : float; left : float }.
End Offset.

(** What [getCursorOffset] returns when it returns an object. *)
Inductive CursorOffset :=
  | TopLeft (top left lineHeight : float)
  | TopRight (top right lineHeight : float).

(** A native event of the element. *)
Module Event.
Record t := {
  type : string;
  keyCode : N;
  ctrlKey : bool;
  defaultPrevented : bool
}.

Definition preventDefault (e : t) : t :=
  {| type := type e; keyCode := keyCode e; ctrlKey := ctrlKey e;
     defaultPrevented := true |}.
End Event.

(** The notifications of the editor: [change], [move] with its direction,
    [enter] and [esc]. *)
Inductive Notification :=
  | Change
  | Move (code : string)
  | Enter
  | Esc.

(** The event object handed to the engine's listeners and returned by the
    emitting method. *)
Module CustomEvent.
Record t := { name : Notification; defaultPrevented : bool }.
End CustomEvent.

(** The object under construction: [this.el] is absent once deleted. *)
Record Textarea := { el : option loc; isIE9 : bool }.

Record World := {
  nodes : gmap loc HTMLTextAreaElement;
  activeElement : option loc;
  documentElement : option float;   (* its clientWidth, when there is a root *)
  this : Textarea;
  emitted : list Notification
}.

Definition with_nodes (m : gmap loc HTMLTextAreaElement) (w : World) :=
  {| nodes := m; activeElement := activeElement w;
     documentElement := documentElement w; this := this w;
     emitted := emitted w |}.

Definition with_activeElement (a : option loc) (w : World) :=
  {| nodes := nodes w; activeElement := a;
     documentElement := documentElement w; this := this w;
     emitted := emitted w |}.

Definition with_this (t : Textarea) (w : World) :=
  {| nodes := nodes w; activeElement := activeElement w;
     documentElement := documentElement w; this := t;
     emitted := emitted w |}.

Definition with_emitted (ns : list Notification) (w : World) :=
  {| nodes := nodes w; activeElement := activeElement w;
     documentElement := documentElement w; this := this w;
     emitted := ns |}.

(** Modelled from the spec: [SearchResult] is declared in
    [./search_result], which is not in the file. Its [replace] takes the text
    before and after the caret and returns the two-part array
    [(prefix, suffix)], or no array at all ([null], or [undefined]) when the
    engine declines. *)
Inductive ReplaceResult :=
  | RArray (r0 r1 : jsstring)
  | RNull
  | RUndefined.

Definition Array_isArray (r : ReplaceResult) : bool :=
  match r with
  | RArray _ _ => true
  | RNull | RUndefined => false
  end.

Record SearchResult := {
  replace : jsstring -> jsstring -> ReplaceResult
}.

(** ** What the class consumes from outside the file

    [getCode] is inherited from [Editor]; [getIEVersion] and
    [calculateElementOffset] come from [./utils], [getLineHeight] from
    [line-height], [getCaretCoordinates] from [textarea-caret]. [handled n]
    tells whether a listener of the engine marks the emitted notification [n]
    as default-prevented. [stopsImmediatePropagation id ev] tells whether the
    function [id] of the host page, run as a listener for the native event
    [ev], calls [ev.stopImmediatePropagation()]. *)
Class Collaborators := {
  getCode : Event.t -> string;
  getIEVersion : option N;
  calculateElementOffset : HTMLTextAreaElement -> Offset.t;
  getLineHeight : HTMLTextAreaElement -> float;
  getCaretCoordinates : HTMLTextAreaElement -> nat -> Offset.t;
  handled : Notification -> bool;
  stopsImmediatePropagation : nat -> Event.t -> bool
}.

(** ** Access to the element through [this.el] *)

(** [this.el] followed by a property access or a method call: there is
    nothing to access on [undefined]. *)
Definition this_el : JS World loc :=
  fun w =>
    match el (this w) with
    | Some l => (Normal l, w)
    | None => (Throw TypeError, w)
    end.

(** A location always denotes an object of the page; one outside the store
    denotes nothing and is read like [undefined]. *)
Definition deref (l : loc) : JS World HTMLTextAreaElement :=
  fun w =>
    match nodes w !! l with
    | Some e => (Normal e, w)
    | None => (Throw TypeError, w)
    end.

(** [this.el.f] *)
Definition el_get {A} (f : HTMLTextAreaElement -> A) : JS World A :=
  l <- this_el ;; e <- deref l ;; ret (f e).

(** [this.el.f = v], or a method of the element that changes it *)
Definition el_update (f : HTMLTextAreaElement -> HTMLTextAreaElement)
  : JS World unit :=
  l <- this_el ;; e <- deref l ;;
  fun w => (Normal tt, with_nodes (<[l := f e]> (nodes w)) w).

(** [this.el.focus()]: the element becomes the active element when it is a
    focusable area; on an element that is not, the call returns and the focus
    stays where it was. *)
Definition el_focus : JS World unit :=
  l <- this_el ;; e <- deref l ;;
  fun w =>
    (Normal tt,
     if focusable e then with_activeElement (Some l) w else w).

(** The page after [focus()] was called on the element [e] at [l]. *)
Definition focused (l : loc) (e : HTMLTextAreaElement) (w : World) : World :=
  if focusable e then with_activeElement (Some l) w else w.

(** ** The methods of [Editor] the class calls *)

(** Modelled from the spec: [Editor#emit...Event] is not in the file. Each
    outbound notification is delivered to the engine's listeners and comes
    back carrying the default-prevented flag they left on it. *)
Definition emit `{Collaborators} (n : Notification) : JS World CustomEvent.t :=
  fun w =>
    (Normal {| CustomEvent.name := n;
               CustomEvent.defaultPrevented := handled n |},
     with_emitted (emitted w ++ [n]) w).

Definition emitMoveEvent `{Collaborators} (code : string) := emit (Move code).
Definition emitEnterEvent `{Collaborators} := emit Enter.
Definition emitEscEvent `{Collaborators} := emit Esc.
Definition emitChangeEvent `{Collaborators} := emit Change.

(** Modelled from the spec: [Editor#finalize] is not in the file; teardown
    is described as removing the listeners and releasing the element, so the
    inherited part does nothing to the page. *)
Definition Editor_finalize : JS World unit := ret tt.

(** ** The methods of [Textarea] *)

Definition getBeforeCursor : JS World jsstring :=
  v <- el_get value ;;
  i <- el_get selectionEnd ;;
  ret (substring v 0 (Some i)).

Definition getAfterCursor : JS World jsstring :=
  v <- el_get value ;;
  i <- el_get selectionEnd ;;
  ret (substring v i None).

Definition applySearchResult (searchResult : SearchResult) : JS World unit :=
  before <- getBeforeCursor ;;
  after <- getAfterCursor ;;
  match replace searchResult before after with
  | RArray r0 r1 =>
      el_update (set_value (r0 ++ r1)) ;;;
      el_update (set_selectionEnd (length r0)) ;;;
      el_update (set_selectionStart (length r0))
  | RNull | RUndefined => ret tt
  end ;;;
  el_focus.

Definition getElScroll : JS World Offset.t :=
  t <- el_get scrollTop ;;
  l <- el_get scrollLeft ;;
  ret {| Offset.top := t; Offset.left := l |}.

Definition getCursorPosition `{Collaborators} : JS World Offset.t :=
  i <- el_get selectionEnd ;;
  el_get (fun e => getCaretCoordinates e i).

Definition getCursorOffset `{Collaborators} : JS World (option CursorOffset) :=
  elOffset <- el_get calculateElementOffset ;;
  elScroll <- getElScroll ;;
  cursorPosition <- getCursorPosition ;;
  lineHeight <- el_get getLineHeight ;;
  let top := (Offset.top elOffset - Offset.top elScroll
              + Offset.top cursorPosition + lineHeight)%float in
  let left := (Offset.left elOffset - Offset.left elScroll
               + Offset.left cursorPosition)%float in
  d <- el_get dir ;;
  if negb (String.eqb d "rtl") then ret (Some (TopLeft top left lineHeight))
  else
    fun w =>
      match documentElement w with
      | Some clientWidth =>
          (Normal (Some (TopRight top (clientWidth - left)%float lineHeight)), w)
      | None => (Normal None, w)
      end.

Definition onInput `{Collaborators} (_e : Event.t) : JS World unit :=
  emitChangeEvent ;;; ret tt.

(** The handler returns the event it was given, as it leaves it. *)
Definition onKeydown `{Collaborators} (e : Event.t) : JS World Event.t :=
  let code := getCode e in
  event <-
    (if String.eqb code "UP" || String.eqb code "DOWN" then
       ev <- emitMoveEvent code ;; ret (Some ev)
     else if String.eqb code "ENTER" then
       ev <- emitEnterEvent ;; ret (Some ev)
     else if String.eqb code "ESC" then
       ev <- emitEscEvent ;; ret (Some ev)
     else ret None) ;;
  match event with
  | Some ev =>
      if CustomEvent.defaultPrevented ev then ret (Event.preventDefault e)
      else ret e
  | None => ret e
  end.

Definition onKeyup `{Collaborators} (e : Event.t) : JS World unit :=
  let code := getCode e in
  fun w =>
    if String.eqb code "BS" && isIE9 (this w)
    then (emitChangeEvent ;;; ret tt) w
    else (Normal tt, w).

Definition startListening : JS World unit :=
  el_update (addEventListener "input" (BoundMethod CB_onInput)) ;;;
  el_update (addEventListener "keydown" (BoundMethod CB_onKeydown)) ;;;
  el_update (addEventListener "keyup" (BoundMethod CB_onKeyup)).

Definition stopListening : JS World unit :=
  el_update (removeEventListener "input" (BoundMethod CB_onInput)) ;;;
  el_update (removeEventListener "keydown" (BoundMethod CB_onKeydown)) ;;;
  el_update (removeEventListener "keyup" (BoundMethod CB_onKeyup)).

(** [new Textarea(el)]: the three methods are bound to the new object, which
    the callbacks [BoundMethod] stand for, and registered. *)
Definition constructor `{Collaborators} (el0 : loc) : JS World unit :=
  (fun w =>
     (Normal tt,
      with_this {| el := Some el0;
                   isIE9 := bool_decide (getIEVersion = Some 9%N) |} w)) ;;;
  startListening.

Definition finalize : JS World unit :=
  Editor_finalize ;;;
  stopListening ;;;
  fun w => (Normal tt, with_this {| el := None; isIE9 := isIE9 (this w) |} w).

(** ** Native events reaching the element *)

(** A callback run for the event [ev]: it leaves the event as the next
    callback sees it, and tells whether the propagation stops at once. None of
    the editor's handlers stops it. *)

Definition invoke `{Collaborators} (cb : Callback) (ev : Event.t)
  : JS World (Event.t * bool) :=
  match cb with
  | BoundMethod CB_onInput => onInput ev ;;; ret (ev, false)
  | BoundMethod CB_onKeydown => ev' <- onKeydown ev ;; ret (ev', false)
  | BoundMethod CB_onKeyup => onKeyup ev ;;; ret (ev, false)
  | HostFunction id => ret (ev, stopsImmediatePropagation id ev)
  end.

(** The callbacks run in registration order; an exception of one is reported
    and does not stop the others; once a callback has stopped the
    propagation at once, the ones after it do not run. *)
Fixpoint run_listeners `{Collaborators} (cbs : list Callback) (ev : Event.t)
    (w : World) : Event.t * World :=
  match cbs with
  | [] => (ev, w)
  | cb :: rest =>
      match invoke cb ev w with
      | (Normal (ev', true), w') => (ev', w')
      | (Normal (ev', false), w') => run_listeners rest ev' w'
      | (Throw _, w') => run_listeners rest ev w'
      end
  end.

Definition listeners_for (type : string) (e : HTMLTextAreaElement)
  : list Callback :=
  (filter (fun r => r.1 = type) (listeners e)).*2.

(** A native event [ev] fired on the element at [target]. *)
Definition dispatchEvent `{Collaborators} (target : loc) (ev : Event.t)
    (w : World) : Event.t * World :=
  match nodes w !! target with
  | Some e => run_listeners (listeners_for (Event.type ev) e) ev w
  | None => (ev, w)
  end.

(** A run of native events, one after the other. *)
Fixpoint dispatchEvents `{Collaborators} (target : loc) (evs : list Event.t)
    (w : World) : World :=
  match evs with
  | [] => w
  | ev :: rest => dispatchEvents target rest (dispatchEvent target ev w).2
  end.

(** ** Notions the properties are stated with *)

(** The element after [value], [selectionEnd] and [selectionStart] were
    assigned from the pair [(r0, r1)], in this order. *)
Definition replaced (r0 r1 : jsstring) (e : HTMLTextAreaElement)
  : HTMLTextAreaElement :=
  set_selectionStart (length r0)
    (set_selectionEnd (length r0) (set_value (r0 ++ r1) e)).

(** A computation that leaves the page as it found it, however it ends. *)
Definition read_only {A} (m : JS World A) : Prop := forall w, (m w).2 = w.

(** The two coordinates the method computes before it looks at the text
    direction. *)
Definition caret_top `{Collaborators} (e : HTMLTextAreaElement) : float :=
  (Offset.top (calculateElementOffset e) - scrollTop e
   + Offset.top (getCaretCoordinates e (selectionEnd e))
   + getLineHeight e)%float.

Definition caret_left `{Collaborators} (e : HTMLTextAreaElement) : float :=
  (Offset.left (calculateElementOffset e) - scrollLeft e
   + Offset.left (getCaretCoordinates e (selectionEnd e)))%float.

(** What a handler that emitted [n] leaves behind: the notification at the
    end of the log, and the native event default-prevented exactly when a
    listener prevented the default of the notification. *)
Definition emitted_and_checked `{Collaborators} (n : Notification)
    (e : Event.t) (w : World) : completion Event.t * World :=
  (Normal (if handled n then Event.preventDefault e else e),
   with_emitted (emitted w ++ [n]) w).

(** The registrations [startListening] makes. *)
Definition own_registrations : list (string * Callback) :=
  [("input", BoundMethod CB_onInput);
   ("keydown", BoundMethod CB_onKeydown);
   ("keyup", BoundMethod CB_onKeyup)].

(** A registration of one of the editor's bound methods. *)
Definition is_bound (r : string * Callback) : Prop :=
  match r.2 with
  | BoundMethod _ => True
  | HostFunction _ => False
  end.

#[global] Instance is_bound_dec r : Decision (is_bound r).
Proof. destruct r as [type [m|id]]; unfold is_bound; simpl; apply _. Defined.

(** The bound methods are created by the constructor and handed to nobody
    else, so they are registered on an element only as [startListening]
    registers them. *)
Definition bound_as_registered (e : HTMLTextAreaElement) : Prop :=
  Forall (fun r => is_bound r -> r ∈ own_registrations) (listeners e).

(** No bound method of the editor is registered on the element. *)
Definition unbound (e : HTMLTextAreaElement) : Prop :=
  Forall (fun r => ~ is_bound r) (listeners e).

(** The element once [stopListening] has run. *)
Definition detached (e : HTMLTextAreaElement) : HTMLTextAreaElement :=
  removeEventListener "keyup" (BoundMethod CB_onKeyup)
    (removeEventListener "keydown" (BoundMethod CB_onKeydown)
       (removeEventListener "input" (BoundMethod CB_onInput) e)).

(** The element once [startListening] has run. *)
Definition attached (e : HTMLTextAreaElement) : HTMLTextAreaElement :=
  addEventListener "keyup" (BoundMethod CB_onKeyup)
    (addEventListener "keydown" (BoundMethod CB_onKeydown)
       (addEventListener "input" (BoundMethod CB_onInput) e)).

(** The page and the editor once [finalize] has run on element [l]. *)
Definition finalized (l : loc) (e : HTMLTextAreaElement) (w : World) : World :=
  with_this {| el := None; isIE9 := isIE9 (this w) |}
    (with_nodes (<[l := detached e]> (nodes w)) w).

(** The registrations on the element that are not the editor's, in the
    order they were made. *)
Definition host_registrations (e : HTMLTextAreaElement)
  : list (string * Callback) :=
  filter (fun r => ~ is_bound r) (listeners e).



(** ** A sample page, to run the model on *)

(** A decoder of key codes for the samples: backspace, tab and enter,
    escape, the two arrows. *)
Definition sample_getCode (e : Event.t) : string :=
  match Event.keyCode e with
  | 8%N => "BS"
  | 9%N | 13%N => "ENTER"
  | 27%N => "ESC"
  | 38%N => "UP"
  | 40%N => "DOWN"
  | _ => "OTHER"
  end.

Definition sample_services (ie : option N) (h : Notification -> bool)
  : Collaborators :=
  {| getCode := sample_getCode;
     getIEVersion := ie;
     calculateElementOffset :=
       fun _ => {| Offset.top := 100; Offset.left := 40 |};
     getLineHeight := fun _ => 18%float;
     getCaretCoordinates :=
       fun _ i =>
         {| Offset.top := 36; Offset.left := if i is 5 then 35 else 7 |};
     handled := h;
     stopsImmediatePropagation := fun _ _ => false |}.

Definition sample_el (d : string) : HTMLTextAreaElement :=
  {| value := utf16 "hello"; selectionStart := 2; selectionEnd := 5;
     dir := d; scrollTop := 10; scrollLeft := 0; focusable := true;
     listeners := [("click", HostFunction 0)] |}.

(** The same textarea, disabled: [focus()] does not reach it. *)
Definition disabled_el : HTMLTextAreaElement :=
  {| value := utf16 "hello"; selectionStart := 2; selectionEnd := 5;
     dir := ""; scrollTop := 10; scrollLeft := 0; focusable := false;
     listeners := [("click", HostFunction 0)] |}.

Definition disabled_page : World :=
  {| nodes := {[ 1%positive := disabled_el ]};
     activeElement := None;
     documentElement := None;
     this := {| el := Some 1%positive; isIE9 := false |};
     emitted := [] |}.




Definition sample_page (d : string) (root : option float) : World :=
  {| nodes := {[ 1%positive := sample_el d ]};
     activeElement := None;
     documentElement := root;
     this := {| el := Some 1%positive; isIE9 := false |};
     emitted := [] |}.

Definition key (type : string) (code : N) : Event.t :=
  {| Event.type := type; Event.keyCode := code; Event.ctrlKey := false;
     Event.defaultPrevented := false |}.

(** An engine whose listeners prevent the default of [enter] only. *)
Definition handles_enter (n : Notification) : bool :=
  match n with
  | Enter => true
  | _ => false
  end.

(** A search result completing the word before the caret with [" world"],
    and one that declines. *)
Definition sample_result : SearchResult :=
  {| replace := fun before after =>
                  RArray (before ++ utf16 " ") (utf16 "world" ++ after) |}.

Definition declined_result : SearchResult :=
  {| replace := fun _ _ => RUndefined |}.

(** A search result answering with the fixed pair [(p, s)]. *)
Definition fixed_result (p s : jsstring) : SearchResult :=
  {| replace := fun _ _ => RArray p s |}.

(** * Properties *)

(** ** Substrings *)

Lemma substring_prefix (v : jsstring) (i : nat) :
  substring v 0 (Some i) = take i v.
Proof.
  unfold substring; simpl.
  rewrite Nat.sub_0_r, drop_0.
  destruct (decide (i ≤ length v)) as [Hle|Hgt].
  - by rewrite Nat.min_l.
  - rewrite Nat.min_r by lia. rewrite !take_ge; [done | lia | lia].
Qed.

Lemma substring_suffix (v : jsstring) (i : nat) :
  substring v i None = drop i v.
Proof.
  unfold substring; simpl.
  rewrite Nat.min_id.
  rewrite (Nat.min_l (i `min` length v)) by lia.
  rewrite Nat.max_r by lia.
  rewrite take_ge by (rewrite length_drop; lia).
  destruct (decide (i ≤ length v)) as [Hle|Hgt].
  - by rewrite Nat.min_l.
  - rewrite Nat.min_r by lia. rewrite !drop_ge; [done | lia | lia].
Qed.

(** ** Computations that only read *)

Lemma read_only_ret {A} (a : A) : read_only (ret a).
Proof. by intros w. Qed.

Lemma read_only_bind {A B} (m : JS World A) (k : A -> JS World B) :
  read_only m -> (forall a, read_only (k a)) -> read_only (bind m k).
Proof.
  intros Hm Hk w. unfold bind.
  specialize (Hm w). destruct (m w) as [[a|x] w']; simpl in *; subst.
  - apply Hk.
  - done.
Qed.

Lemma read_only_this_el : read_only this_el.
Proof. intros w. unfold this_el. by destruct (el (this w)). Qed.

Lemma read_only_deref l : read_only (deref l).
Proof. intros w. unfold deref. by destruct (nodes w !! l). Qed.

Lemma read_only_el_get {A} (f : HTMLTextAreaElement -> A) :
  read_only (el_get f).
Proof.
  unfold el_get.
  apply read_only_bind; [apply read_only_this_el | intros l].
  apply read_only_bind; [apply read_only_deref | intros e].
  apply read_only_ret.
Qed.

Create HintDb reads.
#[global] Hint Resolve read_only_ret read_only_el_get : reads.

Ltac read_only_steps :=
  repeat (apply read_only_bind; [solve [auto with reads] | intros ?]);
  auto with reads.

(** ** Stepping through [this.el] on a page where it denotes an element *)

Section Steps.
Variables (w : World) (l : loc) (e : HTMLTextAreaElement).
Hypothesis Hel : el (this w) = Some l.
Hypothesis Hnode : nodes w !! l = Some e.

Lemma el_get_ok {A} (f : HTMLTextAreaElement -> A) :
  el_get f w = (Normal (f e), w).
Proof. unfold el_get, bind, this_el, deref. by rewrite Hel, Hnode. Qed.

Lemma el_update_ok (f : HTMLTextAreaElement -> HTMLTextAreaElement) :
  el_update f w = (Normal tt, with_nodes (<[l := f e]> (nodes w)) w).
Proof. unfold el_update, bind, this_el, deref. by rewrite Hel, Hnode. Qed.

Lemma el_focus_ok : el_focus w = (Normal tt, focused l e w).
Proof. unfold el_focus, bind, this_el, deref. by rewrite Hel, Hnode. Qed.

Lemma getBeforeCursor_ok :
  getBeforeCursor w = (Normal (take (selectionEnd e) (value e)), w).
Proof.
  unfold getBeforeCursor, bind. rewrite !el_get_ok.
  unfold ret. by rewrite substring_prefix.
Qed.

Lemma getAfterCursor_ok :
  getAfterCursor w = (Normal (drop (selectionEnd e) (value e)), w).
Proof.
  unfold getAfterCursor, bind. rewrite !el_get_ok.
  unfold ret. by rewrite substring_suffix.
Qed.
End Steps.

(** ** Applying a search result *)

Lemma normalize_newlines_id (v : jsstring) :
  13%N ∉ v -> normalize_newlines v = v.
Proof.
  induction v as [|c rest IH]; [done|].
  intros Hcr. apply not_elem_of_cons in Hcr as [Hc Hrest].
  simpl. destruct (N.eqb_spec c 13) as [->|_]; [done|].
  by rewrite IH.
Qed.

(** The three assignments leave the normalised text, with the caret at the
    length of [r0] or at the end of the text when that is shorter. *)
Lemma replaced_eq (r0 r1 : jsstring) (e : HTMLTextAreaElement) :
  let v := normalize_newlines (r0 ++ r1) in
  let caret := length r0 `min` length v in
  replaced r0 r1 e
  = with_selectionStart caret (with_selectionEnd caret (with_value v e)).
Proof.
  intros v caret. subst caret.
  unfold replaced, set_value. fold v.
  case_bool_decide as Hv.
  - destruct e as [v0 start0 end0 d st sl f ls]; simpl in Hv. subst v0.
    unfold set_selectionStart, set_selectionEnd, setSelectionRange,
      with_selectionStart, with_selectionEnd, with_value; simpl.
    repeat (case_bool_decide; simpl); f_equal; lia.
  - unfold set_selectionStart, set_selectionEnd, setSelectionRange,
      with_selectionStart, with_selectionEnd, with_value; simpl.
    repeat (case_bool_decide; simpl); f_equal; lia.
Qed.

Lemma applySearchResult_run (w : World) (l : loc) (e : HTMLTextAreaElement)
    (searchResult : SearchResult) :
  el (this w) = Some l ->
  nodes w !! l = Some e ->
  applySearchResult searchResult w =
    (Normal tt,
     focused l e
       match replace searchResult (substring (value e) 0 (Some (selectionEnd e)))
                                  (substring (value e) (selectionEnd e) None) with
       | RArray r0 r1 => with_nodes (<[l := replaced r0 r1 e]> (nodes w)) w
       | RNull | RUndefined => w
       end).
Proof.
  intros Hel Hnode. unfold applySearchResult, bind.
  rewrite (getBeforeCursor_ok w l e Hel Hnode).
  rewrite (getAfterCursor_ok w l e Hel Hnode).
  rewrite substring_prefix, substring_suffix.
  destruct (replace searchResult _ _) as [r0 r1| |].
  - rewrite (el_update_ok w l e Hel Hnode).
    set (w1 := with_nodes _ w).
    rewrite (el_update_ok w1 l (set_value (r0 ++ r1) e) Hel)
      by apply lookup_insert_eq.
    set (w2 := with_nodes _ w1).
    rewrite (el_update_ok w2 l
               (set_selectionEnd (length r0) (set_value (r0 ++ r1) e)) Hel)
      by apply lookup_insert_eq.
    set (w3 := with_nodes _ w2).
    rewrite (el_focus_ok w3 l (replaced r0 r1 e) Hel)
      by apply lookup_insert_eq.
    subst w3 w2 w1. unfold focused. rewrite (replaced_eq r0 r1 e) at 1.
    unfold with_nodes; simpl.
    by rewrite !insert_insert_eq.
  - simpl. by rewrite (el_focus_ok w l e Hel Hnode).
  - simpl. by rewrite (el_focus_ok w l e Hel Hnode).
Qed.

(** C1, as the code has it: when [replace] returns the pair [(p, s)],
    [applySearchResult] returns normally and the element's value becomes
    [p ++ s] with its line breaks normalised, as a textarea hands its value
    back; both [selectionStart] and [selectionEnd] become the length of [p],
    or the length of the value when that is shorter; nothing else of the
    element changes, and [focus()] is called on it. When [p ++ s] holds no
    carriage return, the value is [p ++ s] itself and the caret is at the
    length of [p]. *)
Theorem applySearchResult_pair (w : World) (l : loc) (e : HTMLTextAreaElement)
    (searchResult : SearchResult) (p s : jsstring) :
  el (this w) = Some l ->
  nodes w !! l = Some e ->
  replace searchResult (substring (value e) 0 (Some (selectionEnd e)))
                       (substring (value e) (selectionEnd e) None)
    = RArray p s ->
  exists e',
    applySearchResult searchResult w =
      (Normal tt, focused l e (with_nodes (<[l := e']> (nodes w)) w))
    /\ value e' = normalize_newlines (p ++ s)
    /\ selectionStart e' = length p `min` length (value e')
    /\ selectionEnd e' = length p `min` length (value e')
    /\ dir e' = dir e /\ scrollTop e' = scrollTop e
    /\ scrollLeft e' = scrollLeft e /\ focusable e' = focusable e
    /\ listeners e' = listeners e
    /\ (13%N ∉ p ++ s ->
        value e' = p ++ s
        /\ selectionStart e' = length p
        /\ selectionEnd e' = length p).
Proof.
  intros Hel Hnode Hr. exists (replaced p s e).
  rewrite (applySearchResult_run w l e searchResult Hel Hnode), Hr.
  rewrite (replaced_eq p s e). simpl.
  do 9 (split; [done|]).
  intros Hcr. rewrite (normalize_newlines_id _ Hcr), length_app.
  split; [done|]. split; lia.
Qed.

(** C3, as the code has it: when [replace] returns something that is not an
    array, the call changes nothing of the page but, possibly, the focus, so
    the value and the caret of the element stay; and whatever [replace]
    returns, the call returns normally after [focus()] was called on the
    element: the element is the active element when it is focusable, and the
    focus is where it was when it is not. *)
Theorem applySearchResult_declined (w : World) (l : loc)
    (e : HTMLTextAreaElement) (searchResult : SearchResult) :
  el (this w) = Some l ->
  nodes w !! l = Some e ->
  (Array_isArray
     (replace searchResult (substring (value e) 0 (Some (selectionEnd e)))
                           (substring (value e) (selectionEnd e) None))
     = false ->
   applySearchResult searchResult w = (Normal tt, focused l e w))
  /\ (applySearchResult searchResult w).1 = Normal tt
  /\ activeElement (applySearchResult searchResult w).2
     = (if focusable e then Some l else activeElement w).
Proof.
  intros Hel Hnode.
  rewrite (applySearchResult_run w l e searchResult Hel Hnode).
  split; [by destruct (replace searchResult _ _) |].
  split; [done|].
  unfold focused. simpl.
  by destruct (focusable e), (replace searchResult _ _).
Qed.

(** ** The text around the caret *)

(** C2: on every element, [getBeforeCursor] returns the value up to the
    selection end, [getAfterCursor] the rest, the two put together are the
    value, and neither result changes with the selection start. *)
Theorem cursor_split (w : World) (l : loc) (e : HTMLTextAreaElement) :
  el (this w) = Some l ->
  nodes w !! l = Some e ->
  exists before after,
    getBeforeCursor w = (Normal before, w)
    /\ getAfterCursor w = (Normal after, w)
    /\ before ++ after = value e
    /\ before = take (selectionEnd e) (value e)
    /\ forall start,
         let w' := with_nodes (<[l := with_selectionStart start e]> (nodes w)) w in
         (getBeforeCursor w').1 = Normal before
         /\ (getAfterCursor w').1 = Normal after.
Proof.
  intros Hel Hnode.
  exists (take (selectionEnd e) (value e)), (drop (selectionEnd e) (value e)).
  rewrite (getBeforeCursor_ok w l e Hel Hnode).
  rewrite (getAfterCursor_ok w l e Hel Hnode).
  repeat split; [apply take_drop | |].
  - rewrite (getBeforeCursor_ok _ l (with_selectionStart start e));
      [done | done | apply lookup_insert_eq].
  - rewrite (getAfterCursor_ok _ l (with_selectionStart start e));
      [done | done | apply lookup_insert_eq].
Qed.

Section WithCollaborators.
Context `{Collaborators}.

(** ** The caret on the screen *)

Lemma read_only_getElScroll : read_only getElScroll.
Proof. unfold getElScroll. read_only_steps. Qed.

Lemma read_only_getCursorPosition : read_only getCursorPosition.
Proof. unfold getCursorPosition. read_only_steps. Qed.

Lemma read_only_getCursorOffset : read_only getCursorOffset.
Proof.
  unfold getCursorOffset.
  apply read_only_bind; [auto with reads | intros elOffset].
  apply read_only_bind; [apply read_only_getElScroll | intros elScroll].
  apply read_only_bind; [apply read_only_getCursorPosition | intros pos].
  apply read_only_bind; [auto with reads | intros lineHeight].
  apply read_only_bind; [auto with reads | intros d].
  destruct (negb _); [apply read_only_ret |].
  intros w. by destruct (documentElement w).
Qed.

Lemma getCursorOffset_run (w : World) (l : loc) (e : HTMLTextAreaElement) :
  el (this w) = Some l ->
  nodes w !! l = Some e ->
  getCursorOffset w =
    (if negb (String.eqb (dir e) "rtl")
     then Normal (Some (TopLeft (caret_top e) (caret_left e) (getLineHeight e)))
     else match documentElement w with
          | Some clientWidth =>
              Normal (Some (TopRight (caret_top e)
                              (clientWidth - caret_left e)%float
                              (getLineHeight e)))
          | None => Normal None
          end,
     w).
Proof.
  intros Hel Hnode.
  unfold getCursorOffset, getElScroll, getCursorPosition, bind.
  rewrite !(el_get_ok w l e Hel Hnode). unfold ret.
  rewrite !(el_get_ok w l e Hel Hnode). simpl.
  destruct (negb _); [done |].
  by destruct (documentElement w).
Qed.

(** C7: on an element whose [dir] is not ["rtl"], [getCursorOffset] returns
    [{top, left, lineHeight}] with
    [top = elOffset.top - elScroll.top + cursorPosition.top + lineHeight] and
    [left = elOffset.left - elScroll.left + cursorPosition.left], the caret
    being measured at the selection end. *)
Theorem getCursorOffset_ltr (w : World) (l : loc) (e : HTMLTextAreaElement) :
  el (this w) = Some l ->
  nodes w !! l = Some e ->
  dir e ≠ "rtl" ->
  getCursorOffset w =
    (Normal (Some (TopLeft
       (Offset.top (calculateElementOffset e) - scrollTop e
        + Offset.top (getCaretCoordinates e (selectionEnd e))
        + getLineHeight e)%float
       (Offset.left (calculateElementOffset e) - scrollLeft e
        + Offset.left (getCaretCoordinates e (selectionEnd e)))%float
       (getLineHeight e))),
     w).
Proof.
  intros Hel Hnode Hdir.
  rewrite (getCursorOffset_run w l e Hel Hnode).
  apply String.eqb_neq in Hdir. by rewrite Hdir.
Qed.

(** C8: on an element whose [dir] is ["rtl"], [getCursorOffset] returns
    [{top, right, lineHeight}] with [right = clientWidth - left] when the
    document has a root element, and returns [undefined], without throwing,
    when it has none. *)
Theorem getCursorOffset_rtl (w : World) (l : loc) (e : HTMLTextAreaElement) :
  el (this w) = Some l ->
  nodes w !! l = Some e ->
  dir e = "rtl" ->
  (forall clientWidth,
     documentElement w = Some clientWidth ->
     getCursorOffset w =
       (Normal (Some (TopRight
          (Offset.top (calculateElementOffset e) - scrollTop e
           + Offset.top (getCaretCoordinates e (selectionEnd e))
           + getLineHeight e)%float
          (clientWidth
           - (Offset.left (calculateElementOffset e) - scrollLeft e
              + Offset.left (getCaretCoordinates e (selectionEnd e))))%float
          (getLineHeight e))),
        w))
  /\ (documentElement w = None -> getCursorOffset w = (Normal None, w)).
Proof.
  intros Hel Hnode Hdir.
  rewrite (getCursorOffset_run w l e Hel Hnode), Hdir. simpl.
  split.
  - intros clientWidth Hroot. by rewrite Hroot.
  - intros Hroot. by rewrite Hroot.
Qed.

(** C10: [getBeforeCursor], [getAfterCursor] and [getCursorOffset] leave the
    page as they found it, whether they return or throw; in particular the
    value, the selection start and the selection end of every element are the
    same after the call. *)
Theorem reads_leave_the_page (w : World) :
  (getBeforeCursor w).2 = w
  /\ (getAfterCursor w).2 = w
  /\ (getCursorOffset w).2 = w.
Proof.
  repeat split.
  - revert w. change (read_only getBeforeCursor).
    unfold getBeforeCursor. read_only_steps.
  - revert w. change (read_only getAfterCursor).
    unfold getAfterCursor. read_only_steps.
  - apply read_only_getCursorOffset.
Qed.

(** ** Keys *)

(** C4: [onKeydown] emits [move] with the code for the codes ["UP"] and
    ["DOWN"], [enter] for ["ENTER"], [esc] for ["ESC"], and nothing for any
    other code; where it emits, it calls [preventDefault] on the native event
    when the emitted notification came back default-prevented, and leaves the
    native event alone when it did not. *)
Theorem onKeydown_notifies (e : Event.t) (w : World) :
  (getCode e = "UP" \/ getCode e = "DOWN" ->
   onKeydown e w = emitted_and_checked (Move (getCode e)) e w)
  /\ (getCode e = "ENTER" -> onKeydown e w = emitted_and_checked Enter e w)
  /\ (getCode e = "ESC" -> onKeydown e w = emitted_and_checked Esc e w)
  /\ (getCode e ≠ "UP" -> getCode e ≠ "DOWN" ->
      getCode e ≠ "ENTER" -> getCode e ≠ "ESC" ->
      onKeydown e w = (Normal e, w)).
Proof.
  unfold onKeydown, emitted_and_checked, emitMoveEvent, emitEnterEvent,
    emitEscEvent, emit, bind, ret.
  repeat split.
  - intros [Hc|Hc]; rewrite Hc; simpl; by destruct (handled _).
  - intros Hc; rewrite Hc; simpl; by destruct (handled _).
  - intros Hc; rewrite Hc; simpl; by destruct (handled _).
  - intros Hup Hdown Henter Hesc.
    apply String.eqb_neq in Hup, Hdown, Henter, Hesc.
    by rewrite Hup, Hdown, Henter, Hesc.
Qed.

(** C9: [onKeyup] emits one [change] when the code is ["BS"] and the
    [isIE9] flag is set, and emits nothing otherwise. *)
Theorem onKeyup_change (e : Event.t) (w : World) :
  (getCode e = "BS" /\ isIE9 (this w) = true ->
   onKeyup e w = (Normal tt, with_emitted (emitted w ++ [Change]) w))
  /\ (~ (getCode e = "BS" /\ isIE9 (this w) = true) ->
      onKeyup e w = (Normal tt, w)).
Proof.
  unfold onKeyup, emitChangeEvent, emit, bind, ret. split.
  - intros [Hc Hie]. by rewrite Hc, Hie.
  - intros Hn.
    destruct (String.eqb (getCode e) "BS") eqn:Hc; [|done].
    destruct (isIE9 (this w)) eqn:Hie; [|done].
    apply String.eqb_eq in Hc. tauto.
Qed.

(** ** Listening and teardown *)

Lemma elem_of_removeEventListener type cb e r :
  r ∈ listeners (removeEventListener type cb e)
  <-> r ∈ listeners e /\ r ≠ (type, cb).
Proof.
  unfold removeEventListener; simpl.
  rewrite list_elem_of_filter. tauto.
Qed.

Lemma elem_of_addEventListener type cb e r :
  r ∈ listeners (addEventListener type cb e)
  <-> r ∈ listeners e \/ r = (type, cb).
Proof.
  unfold addEventListener. case_bool_decide as Hin; simpl.
  - split; [tauto | intros [?| ->]; done].
  - rewrite elem_of_app, list_elem_of_singleton. tauto.
Qed.

Lemma detached_unbound e : bound_as_registered e -> unbound (detached e).
Proof.
  unfold bound_as_registered, unbound. rewrite !Forall_forall.
  intros Hreg r Hin Hbound. unfold detached in Hin.
  rewrite !elem_of_removeEventListener in Hin.
  destruct Hin as [[[Hin Hinput] Hkeydown] Hkeyup].
  specialize (Hreg r Hin Hbound). unfold own_registrations in Hreg.
  set_unfold in Hreg. by destruct Hreg as [?|[?|[?|[]]]].
Qed.

Lemma attached_bound e : unbound e -> bound_as_registered (attached e).
Proof.
  unfold bound_as_registered, unbound. rewrite !Forall_forall.
  intros Hun r Hin Hbound. unfold attached in Hin.
  rewrite !elem_of_addEventListener in Hin.
  unfold own_registrations. rewrite !elem_of_cons.
  destruct Hin as [[[Hin| ->]| ->]| ->]; [by apply Hun in Hin | tauto..].
Qed.

Lemma startListening_ok (w : World) (l : loc) (e : HTMLTextAreaElement) :
  el (this w) = Some l ->
  nodes w !! l = Some e ->
  startListening w = (Normal tt, with_nodes (<[l := attached e]> (nodes w)) w).
Proof.
  intros Hel Hnode. unfold startListening, bind.
  rewrite (el_update_ok w l e Hel Hnode).
  set (w1 := with_nodes _ w).
  rewrite (el_update_ok w1 l _ Hel (lookup_insert_eq _ _ _)).
  set (w2 := with_nodes _ w1).
  rewrite (el_update_ok w2 l _ Hel (lookup_insert_eq _ _ _)).
  subst w2 w1. unfold with_nodes; simpl. by rewrite !insert_insert_eq.
Qed.

Lemma stopListening_ok (w : World) (l : loc) (e : HTMLTextAreaElement) :
  el (this w) = Some l ->
  nodes w !! l = Some e ->
  stopListening w = (Normal tt, with_nodes (<[l := detached e]> (nodes w)) w).
Proof.
  intros Hel Hnode. unfold stopListening, bind.
  rewrite (el_update_ok w l e Hel Hnode).
  set (w1 := with_nodes _ w).
  rewrite (el_update_ok w1 l _ Hel (lookup_insert_eq _ _ _)).
  set (w2 := with_nodes _ w1).
  rewrite (el_update_ok w2 l _ Hel (lookup_insert_eq _ _ _)).
  subst w2 w1. unfold with_nodes; simpl. by rewrite !insert_insert_eq.
Qed.

Lemma finalize_ok (w : World) (l : loc) (e : HTMLTextAreaElement) :
  el (this w) = Some l ->
  nodes w !! l = Some e ->
  finalize w = (Normal tt, finalized l e w).
Proof.
  intros Hel Hnode. unfold finalize, Editor_finalize, bind, ret.
  by rewrite (stopListening_ok w l e Hel Hnode).
Qed.

Lemma finalize_released (w : World) :
  el (this w) = None -> finalize w = (Throw TypeError, w).
Proof.
  intros Hel.
  unfold finalize, Editor_finalize, stopListening, el_update, bind, ret,
    this_el.
  by rewrite Hel.
Qed.

Lemma constructor_ok (w : World) (l : loc) (e : HTMLTextAreaElement) :
  nodes w !! l = Some e ->
  constructor l w =
    (Normal tt,
     with_nodes (<[l := attached e]> (nodes w))
       (with_this {| el := Some l;
                     isIE9 := bool_decide (getIEVersion = Some 9%N) |} w)).
Proof.
  intros Hnode. unfold constructor, bind.
  by rewrite (startListening_ok _ l e).
Qed.

(** ** Native events on an element the editor is not listening on *)

Lemma run_listeners_host (cbs : list Callback) (ev : Event.t) (w : World) :
  (forall m, BoundMethod m ∉ cbs) ->
  run_listeners cbs ev w = (ev, w).
Proof.
  induction cbs as [|cb rest IH]; intros Hhost; [done|].
  destruct cb as [m|id].
  - exfalso. apply (Hhost m). apply list_elem_of_here.
  - simpl. destruct (stopsImmediatePropagation id ev); [done|].
    apply IH. intros m Hin.
    apply (Hhost m). by apply list_elem_of_further.
Qed.

Lemma listeners_for_unbound (type : string) (e : HTMLTextAreaElement) :
  unbound e -> forall m, BoundMethod m ∉ listeners_for type e.
Proof.
  unfold unbound. rewrite Forall_forall.
  intros Hun m Hin. unfold listeners_for in Hin.
  apply list_elem_of_fmap in Hin as [[type' cb] [Hcb Hin]].
  apply list_elem_of_filter in Hin as [_ Hin].
  simpl in Hcb. subst cb. by apply Hun in Hin.
Qed.

Lemma dispatchEvent_unbound (w : World) (l : loc) (e : HTMLTextAreaElement)
    (ev : Event.t) :
  nodes w !! l = Some e ->
  unbound e ->
  dispatchEvent l ev w = (ev, w).
Proof.
  intros Hnode Hun. unfold dispatchEvent. rewrite Hnode.
  apply run_listeners_host. by apply listeners_for_unbound.
Qed.

Lemma dispatchEvents_unbound (w : World) (l : loc) (e : HTMLTextAreaElement)
    (evs : list Event.t) :
  nodes w !! l = Some e ->
  unbound e ->
  dispatchEvents l evs w = w.
Proof.
  intros Hnode Hun. induction evs as [|ev rest IH]; [done|].
  simpl. by rewrite (dispatchEvent_unbound w l e ev Hnode Hun).
Qed.

(** C5: once [finalize] has run, which it does without throwing, native
    events fired on the element, of any type and in any number, reach none of
    the editor's handlers: each event comes back as it was fired, the page is
    unchanged and the log of notifications is the one from before the
    teardown. *)
Theorem finalize_silences (w : World) (l : loc) (e : HTMLTextAreaElement) :
  el (this w) = Some l ->
  nodes w !! l = Some e ->
  bound_as_registered e ->
  exists w',
    finalize w = (Normal tt, w')
    /\ emitted w' = emitted w
    /\ (forall ev, dispatchEvent l ev w' = (ev, w'))
    /\ (forall evs, emitted (dispatchEvents l evs w') = emitted w).
Proof.
  intros Hel Hnode Hreg. exists (finalized l e w).
  assert (Hnode' : nodes (finalized l e w) !! l = Some (detached e))
    by apply lookup_insert_eq.
  pose proof (detached_unbound e Hreg) as Hun.
  split; [|split; [|split]].
  - by apply finalize_ok.
  - done.
  - intros ev. by apply (dispatchEvent_unbound _ l (detached e)).
  - intros evs. by rewrite (dispatchEvents_unbound _ l (detached e)).
Qed.

Lemma detached_listeners e :
  listeners (detached e)
  = filter (fun r => r ∉ own_registrations) (listeners e).
Proof.
  unfold detached, removeEventListener; simpl.
  rewrite !list_filter_filter. apply list_filter_iff.
  intros r. unfold own_registrations. set_unfold. tauto.
Qed.

(** C6, as the code has it: the first [finalize] returns normally, takes the
    three registrations of the editor off the element, leaving the others,
    and releases the element reference; a second one throws a [TypeError]
    when [stopListening] reaches for the released reference, before it
    touches any listener, and leaves the page and the editor as the first
    call left them. *)
Theorem finalize_twice (w : World) (l : loc) (e : HTMLTextAreaElement) :
  el (this w) = Some l ->
  nodes w !! l = Some e ->
  exists e' w',
    finalize w = (Normal tt, w')
    /\ w' = with_this {| el := None; isIE9 := isIE9 (this w) |}
              (with_nodes (<[l := e']> (nodes w)) w)
    /\ listeners e'
       = filter (fun r => r ∉ own_registrations) (listeners e)
    /\ value e' = value e
    /\ selectionStart e' = selectionStart e
    /\ selectionEnd e' = selectionEnd e
    /\ el (this w') = None
    /\ finalize w' = (Throw TypeError, w').
Proof.
  intros Hel Hnode. exists (detached e), (finalized l e w).
  split; [by apply finalize_ok |].
  split; [done|].
  split; [apply detached_listeners |].
  do 4 (split; [done|]).
  by apply finalize_released.
Qed.

End WithCollaborators.

(** * Further properties of the class *)

(** ** Lists of registrations *)

Lemma filter_all {A} (P : A -> Prop) `{forall x, Decision (P x)} (l : list A) :
  Forall P l -> filter P l = l.
Proof.
  induction 1 as [|x l Hx Hl IH]; [done|].
  rewrite filter_cons_True by done. by rewrite IH.
Qed.

Lemma unbound_not_elem e type m :
  unbound e -> (type, BoundMethod m) ∉ listeners e.
Proof.
  unfold unbound. rewrite Forall_forall. intros Hun Hin.
  by apply (Hun _ Hin).
Qed.

Lemma unbound_all_differ e type m :
  unbound e -> Forall (fun r => r ≠ (type, BoundMethod m)) (listeners e).
Proof.
  intros Hun. rewrite Forall_forall. intros r Hin ->.
  by apply (unbound_not_elem e type m Hun).
Qed.

Lemma addEventListener_absent type cb e :
  (type, cb) ∉ listeners e ->
  addEventListener type cb e
  = with_listeners (listeners e ++ [(type, cb)]) e.
Proof. intros Hin. unfold addEventListener. by rewrite bool_decide_eq_false_2. Qed.

Lemma attached_listeners e :
  unbound e ->
  attached e = with_listeners (listeners e ++ own_registrations) e.
Proof.
  intros Hun. unfold attached.
  rewrite (addEventListener_absent "input" _ e)
    by by apply unbound_not_elem.
  rewrite (addEventListener_absent "keydown"); simpl.
  - rewrite (addEventListener_absent "keyup"); simpl.
    + unfold with_listeners, own_registrations; simpl.
      by rewrite <- !app_assoc.
    + rewrite !elem_of_app, !list_elem_of_singleton.
      intros [[Hin|Heq]|Heq]; [|discriminate..].
      by apply unbound_not_elem in Hin.
  - rewrite elem_of_app, list_elem_of_singleton.
    intros [Hin|Heq]; [|discriminate].
    by apply unbound_not_elem in Hin.
Qed.

Lemma detached_attached e : unbound e -> detached (attached e) = e.
Proof.
  intros Hun. rewrite (attached_listeners e Hun).
  unfold detached, removeEventListener, with_listeners; simpl.
  rewrite filter_app, (filter_all _ _ (unbound_all_differ e _ _ Hun)).
  rewrite filter_app, (filter_all _ _ (unbound_all_differ e _ _ Hun)).
  rewrite filter_app, (filter_all _ _ (unbound_all_differ e _ _ Hun)).
  replace (filter _ (filter _ (filter _ own_registrations)))
    with (@nil (string * Callback)) by reflexivity.
  rewrite app_nil_r. by destruct e.
Qed.

Lemma addEventListener_present type cb e :
  (type, cb) ∈ listeners e -> addEventListener type cb e = e.
Proof. intros Hin. unfold addEventListener. by rewrite bool_decide_eq_true_2. Qed.

Lemma attached_attached e : attached (attached e) = attached e.
Proof.
  assert (Hall : forall r, r ∈ own_registrations -> r ∈ listeners (attached e)).
  { intros r Hr. unfold attached. rewrite !elem_of_addEventListener.
    unfold own_registrations in Hr. set_unfold in Hr. tauto. }
  unfold attached at 1.
  rewrite (addEventListener_present "input" _ (attached e))
    by (apply Hall; unfold own_registrations; set_unfold; tauto).
  rewrite (addEventListener_present "keydown" _ (attached e))
    by (apply Hall; unfold own_registrations; set_unfold; tauto).
  rewrite (addEventListener_present "keyup" _ (attached e))
    by (apply Hall; unfold own_registrations; set_unfold; tauto).
  done.
Qed.

Lemma detached_detached e : detached (detached e) = detached e.
Proof.
  assert (Hall : forall type m,
             (type, BoundMethod m) ∈ own_registrations ->
             Forall (fun r => r ≠ (type, BoundMethod m))
               (listeners (detached e))).
  { intros type m Hown. rewrite Forall_forall. intros r Hin ->.
    unfold detached in Hin. rewrite !elem_of_removeEventListener in Hin.
    unfold own_registrations in Hown. set_unfold in Hown.
    destruct Hin as [[[_ ?] ?] ?]. by destruct Hown as [?|[?|[?|[]]]]. }
  revert Hall. generalize (detached e). intros d Hall.
  unfold detached, removeEventListener, with_listeners; simpl.
  rewrite (filter_all (fun r => r ≠ ("input", BoundMethod CB_onInput)));
    [| apply Hall; unfold own_registrations; set_unfold; tauto].
  rewrite (filter_all (fun r => r ≠ ("keydown", BoundMethod CB_onKeydown)));
    [| apply Hall; unfold own_registrations; set_unfold; tauto].
  rewrite (filter_all (fun r => r ≠ ("keyup", BoundMethod CB_onKeyup)));
    [| apply Hall; unfold own_registrations; set_unfold; tauto].
  by destruct d.
Qed.

Lemma host_registrations_remove type m (ls : list (string * Callback)) :
  filter (fun r => ~ is_bound r) (filter (fun r => r ≠ (type, BoundMethod m)) ls)
  = filter (fun r => ~ is_bound r) ls.
Proof.
  induction ls as [|r ls IH]; [done|].
  destruct (decide (r = (type, BoundMethod m))) as [->|Hne].
  - rewrite (filter_cons_False (fun r => r ≠ _)) by (intros Hn; by apply Hn).
    rewrite (filter_cons_False (fun r => ~ is_bound r))
      by (intros Hn; by apply Hn).
    done.
  - rewrite (filter_cons_True (fun r => r ≠ _)) by done.
    rewrite !(filter_cons (fun r => ~ is_bound r)). by rewrite IH.
Qed.

Lemma host_registrations_detached e :
  host_registrations (detached e) = host_registrations e.
Proof.
  unfold host_registrations, detached, removeEventListener; simpl.
  by rewrite !host_registrations_remove.
Qed.

Section Further.
Context `{Collaborators}.

(** ** Construction and teardown *)

(** X1: constructing the editor on an element that carries none of its bound
    methods returns normally, stores the reference, sets [isIE9] to whether
    [getIEVersion()] is 9, and appends the three registrations, in the order
    input, keydown, keyup, after the registrations of the host; the text, the
    selection and the rest of the element are not touched. *)
Theorem constructor_registers (w : World) (l : loc) (e : HTMLTextAreaElement) :
  nodes w !! l = Some e ->
  unbound e ->
  exists e',
    constructor l w =
      (Normal tt,
       with_nodes (<[l := e']> (nodes w))
         (with_this {| el := Some l;
                       isIE9 := bool_decide (getIEVersion = Some 9%N) |} w))
    /\ listeners e' = listeners e ++ own_registrations
    /\ value e' = value e
    /\ selectionStart e' = selectionStart e
    /\ selectionEnd e' = selectionEnd e
    /\ dir e' = dir e
    /\ scrollTop e' = scrollTop e /\ scrollLeft e' = scrollLeft e.
Proof.
  intros Hnode Hun. exists (attached e).
  split; [by apply constructor_ok |].
  rewrite (attached_listeners e Hun). by repeat apply conj.
Qed.

(** X2: constructing the editor on such an element and finalizing it gives the
    page back exactly as it was: every element, with its registrations in
    their order, the focus and the log; only the editor object remains, with
    its reference released. *)
Theorem construct_finalize_round_trip (w : World) (l : loc)
    (e : HTMLTextAreaElement) :
  nodes w !! l = Some e ->
  unbound e ->
  (constructor l ;;; finalize) w =
    (Normal tt,
     with_this {| el := None;
                  isIE9 := bool_decide (getIEVersion = Some 9%N) |} w).
Proof.
  intros Hnode Hun. unfold bind at 1.
  rewrite (constructor_ok w l e Hnode).
  rewrite (finalize_ok _ l (attached e)); [| done | apply lookup_insert_eq].
  unfold finalized, with_this, with_nodes; simpl.
  rewrite insert_insert_eq, (detached_attached e Hun).
  by rewrite (insert_id _ _ _ Hnode).
Qed.

(** X3: [startListening] run a second time changes nothing: no callback is
    registered twice. *)
Theorem startListening_twice (w : World) (l : loc) (e : HTMLTextAreaElement) :
  el (this w) = Some l ->
  nodes w !! l = Some e ->
  (startListening ;;; startListening) w = startListening w.
Proof.
  intros Hel Hnode. unfold bind at 1.
  rewrite (startListening_ok w l e Hel Hnode). cbv beta iota.
  set (w1 := with_nodes _ w).
  rewrite (startListening_ok w1 l (attached e) Hel (lookup_insert_eq _ _ _)).
  subst w1. unfold with_nodes; simpl.
  by rewrite insert_insert_eq, attached_attached.
Qed.

(** X4: [stopListening] run a second time, while the reference is still
    held, returns normally and changes nothing: removing a callback that is
    not registered is not an error. *)
Theorem stopListening_twice (w : World) (l : loc) (e : HTMLTextAreaElement) :
  el (this w) = Some l ->
  nodes w !! l = Some e ->
  (stopListening ;;; stopListening) w = stopListening w
  /\ (stopListening w).1 = Normal tt.
Proof.
  intros Hel Hnode. unfold bind at 1.
  rewrite (stopListening_ok w l e Hel Hnode). cbv beta iota.
  set (w1 := with_nodes _ w).
  rewrite (stopListening_ok w1 l (detached e) Hel (lookup_insert_eq _ _ _)).
  subst w1. unfold with_nodes; simpl.
  by rewrite insert_insert_eq, detached_detached.
Qed.

(** X5: [finalize] writes to one element only, the one the editor holds, and
    of it only drops registrations of the bound methods: the registrations of
    the host stay, in their order, as do the text, the selection and the
    direction; the focus, the log and the [isIE9] flag stay as well. *)
Theorem finalize_keeps_the_rest (w : World) (l : loc)
    (e : HTMLTextAreaElement) :
  el (this w) = Some l ->
  nodes w !! l = Some e ->
  exists e',
    finalize w =
      (Normal tt,
       with_this {| el := None; isIE9 := isIE9 (this w) |}
         (with_nodes (<[l := e']> (nodes w)) w))
    /\ host_registrations e' = host_registrations e
    /\ value e' = value e
    /\ selectionStart e' = selectionStart e
    /\ selectionEnd e' = selectionEnd e
    /\ dir e' = dir e
    /\ scrollTop e' = scrollTop e /\ scrollLeft e' = scrollLeft e.
Proof.
  intros Hel Hnode. exists (detached e).
  split; [by apply finalize_ok |].
  split; [apply host_registrations_detached |].
  by repeat apply conj.
Qed.

(** ** Native events while the editor listens *)







(** ** Reading and writing the text *)

(** X9: once the element reference is released, the text accessors and
    [applySearchResult] throw a [TypeError] and leave the page as it is; in
    particular the element does not get the focus. *)
Theorem released_editor_throws (w : World) (searchResult : SearchResult) :
  el (this w) = None ->
  getBeforeCursor w = (Throw TypeError, w)
  /\ getAfterCursor w = (Throw TypeError, w)
  /\ applySearchResult searchResult w = (Throw TypeError, w).
Proof.
  intros Hel.
  unfold applySearchResult, getBeforeCursor, getAfterCursor, el_get, bind,
    this_el.
  by rewrite Hel.
Qed.

(** X10: after a pair [(p, s)] was applied, the text before and the text
    after the caret read back as two parts of the value the element now
    has, [p ++ s] with its line breaks normalised; when [p ++ s] holds no
    carriage return they read back as [p] and as [s]. The selection is
    collapsed and the caret lies within the text. *)
Theorem applied_pair_reads_back (w : World) (l : loc)
    (e : HTMLTextAreaElement) (searchResult : SearchResult)
    (p s : jsstring) :
  el (this w) = Some l ->
  nodes w !! l = Some e ->
  replace searchResult (substring (value e) 0 (Some (selectionEnd e)))
                       (substring (value e) (selectionEnd e) None)
    = RArray p s ->
  let w' := (applySearchResult searchResult w).2 in
  exists before after,
    getBeforeCursor w' = (Normal before, w')
    /\ getAfterCursor w' = (Normal after, w')
    /\ before ++ after = normalize_newlines (p ++ s)
    /\ (13%N ∉ p ++ s -> before = p /\ after = s)
    /\ exists e',
         nodes w' !! l = Some e'
         /\ selectionStart e' = selectionEnd e'
         /\ selectionEnd e' <= length (value e').
Proof.
  intros Hel Hnode Hr w'. subst w'.
  rewrite (applySearchResult_run w l e searchResult Hel Hnode), Hr.
  cbn [snd]. set (w' := focused l e _).
  assert (Hel' : el (this w') = Some l)
    by (subst w'; unfold focused; by destruct (focusable e)).
  assert (Hnode' : nodes w' !! l = Some (replaced p s e)).
  { subst w'. unfold focused. destruct (focusable e); apply lookup_insert_eq. }
  rewrite (getBeforeCursor_ok w' l _ Hel' Hnode').
  rewrite (getAfterCursor_ok w' l _ Hel' Hnode').
  rewrite (replaced_eq p s e). simpl.
  eexists _, _. split; [done|]. split; [done|].
  split; [apply take_drop |].
  split.
  - intros Hcr. rewrite (normalize_newlines_id _ Hcr), length_app.
    rewrite Nat.min_l by lia.
    by rewrite take_app_length, drop_app_length.
  - exists (replaced p s e). split; [exact Hnode' |].
    rewrite (replaced_eq p s e). simpl. split; [done | lia].
Qed.

(** X11: with the caret at 0 the text before it is empty and the text after
    it is the whole value; with the caret at or past the end it is the other
    way round; in general the two have the lengths [min i n] and [n - i] for
    a caret [i] in a value of length [n]. *)
Theorem cursor_edges (w : World) (l : loc) (e : HTMLTextAreaElement) :
  el (this w) = Some l ->
  nodes w !! l = Some e ->
  (selectionEnd e = 0 ->
   getBeforeCursor w = (Normal [], w)
   /\ getAfterCursor w = (Normal (value e), w))
  /\ (length (value e) <= selectionEnd e ->
      getBeforeCursor w = (Normal (value e), w)
      /\ getAfterCursor w = (Normal [], w))
  /\ exists before after,
       getBeforeCursor w = (Normal before, w)
       /\ getAfterCursor w = (Normal after, w)
       /\ length before = selectionEnd e `min` length (value e)
       /\ length after = length (value e) - selectionEnd e.
Proof.
  intros Hel Hnode.
  rewrite (getBeforeCursor_ok w l e Hel Hnode).
  rewrite (getAfterCursor_ok w l e Hel Hnode).
  split; [|split].
  - intros ->. by rewrite take_0, drop_0.
  - intros Hge. by rewrite take_ge, drop_ge.
  - eexists _, _. split; [done|]. split; [done|].
    by rewrite length_take, length_drop.
Qed.

(** X12: on an element the editor holds, [getCursorOffset] never throws, and
    it returns [undefined] in one case only: the direction is ["rtl"] and the
    document has no root element. *)
Theorem getCursorOffset_undefined_iff (w : World) (l : loc)
    (e : HTMLTextAreaElement) :
  el (this w) = Some l ->
  nodes w !! l = Some e ->
  exists r,
    getCursorOffset w = (Normal r, w)
    /\ (r = None <-> dir e = "rtl" /\ documentElement w = None).
Proof.
  intros Hel Hnode. rewrite (getCursorOffset_run w l e Hel Hnode).
  destruct (String.eqb (dir e) "rtl") eqn:Hdir; simpl.
  - apply String.eqb_eq in Hdir.
    destruct (documentElement w) as [clientWidth|]; eexists; split; try done.
    split; [done | by intros [_ ?]].
  - apply String.eqb_neq in Hdir.
    eexists; split; [done|]. split; [done | by intros [? _]].
Qed.

End Further.

(** * The properties on the sample page *)

(** The spec's scenario: value ["hello"], caret at 5, result
    [["hello ", "world"]]. *)
Lemma applySearchResult_pair_witness :
  let w := sample_page "" None in
  exists e',
    applySearchResult sample_result w =
      (Normal tt,
       with_activeElement (Some 1%positive)
         (with_nodes (<[1%positive := e']> (nodes w)) w))
    /\ value e' = utf16 "hello world"
    /\ selectionStart e' = 6
    /\ selectionEnd e' = 6.
Proof.
  destruct (applySearchResult_pair (sample_page "" None) 1%positive
              (sample_el "") sample_result (utf16 "hello ") (utf16 "world")
              eq_refl eq_refl eq_refl)
    as (e' & Hrun & _ & _ & _ & _ & _ & _ & _ & _ & Hplain).
  exists e'. split; [exact Hrun |].
  apply Hplain. by apply (bool_decide_unpack _).
Defined.

(** C1, as the spec has it, fails on a pair with a carriage return: for
    [("a\r\n", "b")] the element reads ["a\nb"], which is not [p ++ s], and
    for [("a\r\n", "")] the caret is at 2, not at the length 3 of [p]. *)
Lemma applySearchResult_pair_carriage_return :
  let p := [97; 13; 10]%N in
  let w1 := (applySearchResult (fixed_result p [98%N]) (sample_page "" None)).2 in
  let w2 := (applySearchResult (fixed_result p []) (sample_page "" None)).2 in
  (value <$> nodes w1 !! 1%positive) = Some [97; 10; 98]%N
  /\ (value <$> nodes w1 !! 1%positive) ≠ Some (p ++ [98%N])
  /\ (selectionEnd <$> nodes w2 !! 1%positive) = Some 2
  /\ (selectionEnd <$> nodes w2 !! 1%positive) ≠ Some (length p).
Proof.
  repeat apply conj; vm_compute; congruence.
Qed.

Lemma applySearchResult_declined_witness :
  let w := sample_page "" None in
  applySearchResult declined_result w
    = (Normal tt, with_activeElement (Some 1%positive) w)
  /\ (applySearchResult sample_result w).1 = Normal tt
  /\ activeElement (applySearchResult sample_result w).2 = Some 1%positive
  /\ activeElement (applySearchResult declined_result disabled_page).2 = None.
Proof.
  split; [|split; [|split]].
  - apply (proj1 (applySearchResult_declined (sample_page "" None) 1%positive
                    (sample_el "") declined_result eq_refl eq_refl)).
    reflexivity.
  - apply (proj2 (applySearchResult_declined (sample_page "" None) 1%positive
                    (sample_el "") sample_result eq_refl eq_refl)).
  - apply (proj2 (applySearchResult_declined (sample_page "" None) 1%positive
                    (sample_el "") sample_result eq_refl eq_refl)).
  - apply (proj2 (applySearchResult_declined disabled_page 1%positive
                    disabled_el declined_result eq_refl eq_refl)).
Defined.

(** C3, as the spec has it, fails on a disabled textarea: the call returns,
    the text is as it was, and the element does not have the focus. *)
Lemma applySearchResult_declined_unfocusable :
  applySearchResult declined_result disabled_page = (Normal tt, disabled_page)
  /\ activeElement (applySearchResult declined_result disabled_page).2
     ≠ Some 1%positive
  /\ activeElement (applySearchResult sample_result disabled_page).2
     ≠ Some 1%positive.
Proof.
  repeat apply conj; vm_compute; congruence.
Qed.

Lemma cursor_split_witness :
  let w := sample_page "" None in
  exists before after,
    getBeforeCursor w = (Normal before, w)
    /\ getAfterCursor w = (Normal after, w)
    /\ before ++ after = utf16 "hello"
    /\ before = take 5 (utf16 "hello")
    /\ forall start,
         let w' :=
           with_nodes
             (<[1%positive := with_selectionStart start (sample_el "")]> (nodes w))
             w in
         (getBeforeCursor w').1 = Normal before
         /\ (getAfterCursor w').1 = Normal after.
Proof.
  apply (cursor_split (sample_page "" None) 1%positive (sample_el ""));
    reflexivity.
Defined.

Lemma getCursorOffset_ltr_witness :
  @getCursorOffset (sample_services None (fun _ => false))
    (sample_page "ltr" None)
  = (Normal (Some (TopLeft 144 75 18)), sample_page "ltr" None).
Proof.
  apply (@getCursorOffset_ltr (sample_services None (fun _ => false))
           (sample_page "ltr" None) 1%positive (sample_el "ltr"));
    [reflexivity | reflexivity | discriminate].
Defined.

Lemma getCursorOffset_rtl_witness :
  @getCursorOffset (sample_services None (fun _ => false))
    (sample_page "rtl" (Some 1024%float))
  = (Normal (Some (TopRight 144 949 18)), sample_page "rtl" (Some 1024%float))
  /\ @getCursorOffset (sample_services None (fun _ => false))
       (sample_page "rtl" None)
     = (Normal None, sample_page "rtl" None).
Proof.
  split.
  - exact (proj1 (@getCursorOffset_rtl (sample_services None (fun _ => false))
                    (sample_page "rtl" (Some 1024%float)) 1%positive
                    (sample_el "rtl") eq_refl eq_refl eq_refl)
             1024%float eq_refl).
  - apply (proj2 (@getCursorOffset_rtl (sample_services None (fun _ => false))
                    (sample_page "rtl" None) 1%positive
                    (sample_el "rtl") eq_refl eq_refl eq_refl)).
    reflexivity.
Defined.

Lemma sample_el_unbound d : unbound (sample_el d).
Proof. unfold unbound; simpl. by apply (bool_decide_unpack _). Qed.

Lemma onKeydown_notifies_witness :
  let S := sample_services None handles_enter in
  let w := sample_page "" None in
  @onKeydown S (key "keydown" 38) w
    = (Normal (key "keydown" 38), with_emitted [Move "UP"] w)
  /\ @onKeydown S (key "keydown" 13) w
     = (Normal (Event.preventDefault (key "keydown" 13)),
        with_emitted [Enter] w)
  /\ @onKeydown S (key "keydown" 27) w
     = (Normal (key "keydown" 27), with_emitted [Esc] w)
  /\ @onKeydown S (key "keydown" 65) w = (Normal (key "keydown" 65), w).
Proof.
  intros S w. repeat apply conj.
  - apply (proj1 (@onKeydown_notifies S (key "keydown" 38) w)).
    left; reflexivity.
  - apply (proj1 (proj2 (@onKeydown_notifies S (key "keydown" 13) w))).
    reflexivity.
  - apply (proj1 (proj2 (proj2 (@onKeydown_notifies S (key "keydown" 27) w)))).
    reflexivity.
  - apply (proj2 (proj2 (proj2 (@onKeydown_notifies S (key "keydown" 65) w))));
      discriminate.
Defined.

Lemma onKeyup_change_witness :
  let S := sample_services (Some 9%N) (fun _ => false) in
  let w := (@constructor S 1%positive (sample_page "" None)).2 in
  @onKeyup S (key "keyup" 8) w = (Normal tt, with_emitted [Change] w)
  /\ @onKeyup S (key "keyup" 65) w = (Normal tt, w)
  /\ @onKeyup S (key "keyup" 8) (sample_page "" None)
     = (Normal tt, sample_page "" None).
Proof.
  intros S w. repeat apply conj.
  - apply (proj1 (@onKeyup_change S (key "keyup" 8) w)).
    split; reflexivity.
  - apply (proj2 (@onKeyup_change S (key "keyup" 65) w)).
    intros [Hcode _]; discriminate Hcode.
  - apply (proj2 (@onKeyup_change S (key "keyup" 8) (sample_page "" None))).
    intros [_ Hflag]; discriminate Hflag.
Defined.

(** The editor constructed on the sample page, listening, then torn down. *)
Lemma finalize_silences_witness :
  let S := sample_services (Some 9%N) handles_enter in
  let w := (@constructor S 1%positive (sample_page "" None)).2 in
  exists w',
    finalize w = (Normal tt, w')
    /\ emitted w' = []
    /\ (forall ev, @dispatchEvent S 1%positive ev w' = (ev, w'))
    /\ (forall evs, emitted (@dispatchEvents S 1%positive evs w') = []).
Proof.
  intros S w.
  apply (@finalize_silences S w 1%positive (attached (sample_el "")));
    [reflexivity | reflexivity |].
  exact (attached_bound (sample_el "") (sample_el_unbound "")).
Defined.

Lemma finalize_twice_witness :
  let S := sample_services (Some 9%N) handles_enter in
  let w := (@constructor S 1%positive (sample_page "" None)).2 in
  exists e' w',
    finalize w = (Normal tt, w')
    /\ w' = with_this {| el := None; isIE9 := true |}
              (with_nodes (<[1%positive := e']> (nodes w)) w)
    /\ listeners e' = [("click", HostFunction 0)]
    /\ value e' = utf16 "hello"
    /\ selectionStart e' = 2
    /\ selectionEnd e' = 5
    /\ el (this w') = None
    /\ finalize w' = (Throw TypeError, w').
Proof.
  intros S w.
  apply (finalize_twice w 1%positive (attached (sample_el "")));
    reflexivity.
Defined.

(** C6, as the spec has it, fails: the second [finalize] in a row throws. *)
Lemma finalize_twice_throws :
  let S := sample_services (Some 9%N) handles_enter in
  let w := (@constructor S 1%positive (sample_page "" None)).2 in
  ((finalize ;;; finalize) w).1 = Throw TypeError
  /\ ~ (exists u, ((finalize ;;; finalize) w).1 = Normal u).
Proof.
  split; [reflexivity |].
  intros [u Hu]. vm_compute in Hu. discriminate Hu.
Qed.

(** While the editor listens, the same events do reach the engine: an input,
    an arrow up, and a backspace released on Internet Explorer 9 give
    [change], [move] and one more [change]; after the teardown they give
    nothing. *)
Example listening_then_silent :
  let S := sample_services (Some 9%N) handles_enter in
  let w := (@constructor S 1%positive (sample_page "" None)).2 in
  let evs := [key "input" 0; key "keydown" 38; key "keyup" 8] in
  emitted (@dispatchEvents S 1%positive evs w) = [Change; Move "UP"; Change]
  /\ emitted (@dispatchEvents S 1%positive evs (finalize w).2) = [].
Proof. split; reflexivity. Qed.

(** The spec's scenario: on Internet Explorer 9 a released backspace alone,
    with no input event, gives exactly one [change]; on another browser it
    gives none. *)
Example backspace_released :
  let evs := [key "keyup" 8] in
  emitted (@dispatchEvents (sample_services (Some 9%N) handles_enter) 1%positive evs
             (@constructor (sample_services (Some 9%N) handles_enter) 1%positive
                (sample_page "" None)).2)
    = [Change]
  /\ emitted (@dispatchEvents (sample_services None handles_enter) 1%positive evs
                (@constructor (sample_services None handles_enter) 1%positive
                   (sample_page "" None)).2)
     = [].
Proof. split; reflexivity. Qed.

(** An arrow key the engine does not handle keeps its default action, an
    enter the engine handles loses it. *)
Example keydown_default :
  let S := sample_services None handles_enter in
  let w := (@constructor S 1%positive (sample_page "" None)).2 in
  Event.defaultPrevented (@dispatchEvent S 1%positive (key "keydown" 40) w).1
    = false
  /\ Event.defaultPrevented (@dispatchEvent S 1%positive (key "keydown" 13) w).1
     = true.
Proof. split; reflexivity. Qed.

(** * The further properties on the sample page *)

Lemma constructor_registers_witness :
  let S := sample_services (Some 9%N) handles_enter in
  let w := sample_page "" None in
  exists e',
    @constructor S 1%positive w =
      (Normal tt,
       with_nodes (<[1%positive := e']> (nodes w))
         (with_this {| el := Some 1%positive; isIE9 := true |} w))
    /\ listeners e' = [("click", HostFunction 0);
                       ("input", BoundMethod CB_onInput);
                       ("keydown", BoundMethod CB_onKeydown);
                       ("keyup", BoundMethod CB_onKeyup)]
    /\ value e' = utf16 "hello"
    /\ selectionStart e' = 2
    /\ selectionEnd e' = 5
    /\ dir e' = ""
    /\ scrollTop e' = 10%float /\ scrollLeft e' = 0%float.
Proof.
  intros S w.
  apply (@constructor_registers S w 1%positive (sample_el ""));
    [reflexivity | apply sample_el_unbound].
Defined.

Lemma construct_finalize_round_trip_witness :
  let S := sample_services (Some 9%N) handles_enter in
  let w := sample_page "" None in
  (@constructor S 1%positive ;;; finalize) w =
    (Normal tt, with_this {| el := None; isIE9 := true |} w).
Proof.
  intros S w.
  apply (@construct_finalize_round_trip S w 1%positive (sample_el ""));
    [reflexivity | apply sample_el_unbound].
Defined.

Lemma startListening_twice_witness :
  (startListening ;;; startListening) (sample_page "" None)
  = startListening (sample_page "" None).
Proof.
  apply (startListening_twice (sample_page "" None) 1%positive (sample_el ""));
    reflexivity.
Defined.

Lemma stopListening_twice_witness :
  let S := sample_services None handles_enter in
  let w := (@constructor S 1%positive (sample_page "" None)).2 in
  (stopListening ;;; stopListening) w = stopListening w
  /\ (stopListening w).1 = Normal tt.
Proof.
  intros S w.
  apply (stopListening_twice w 1%positive (attached (sample_el "")));
    reflexivity.
Defined.

Lemma finalize_keeps_the_rest_witness :
  let S := sample_services None handles_enter in
  let w := (@constructor S 1%positive (sample_page "" None)).2 in
  exists e',
    finalize w =
      (Normal tt,
       with_this {| el := None; isIE9 := false |}
         (with_nodes (<[1%positive := e']> (nodes w)) w))
    /\ host_registrations e' = [("click", HostFunction 0)]
    /\ value e' = utf16 "hello"
    /\ selectionStart e' = 2
    /\ selectionEnd e' = 5
    /\ dir e' = ""
    /\ scrollTop e' = 10%float /\ scrollLeft e' = 0%float.
Proof.
  intros S w.
  apply (finalize_keeps_the_rest w 1%positive (attached (sample_el "")));
    reflexivity.
Defined.



Lemma released_editor_throws_witness :
  let w := (finalize (sample_page "" None)).2 in
  getBeforeCursor w = (Throw TypeError, w)
  /\ getAfterCursor w = (Throw TypeError, w)
  /\ applySearchResult sample_result w = (Throw TypeError, w).
Proof.
  apply (released_editor_throws (finalize (sample_page "" None)).2
           sample_result).
  reflexivity.
Defined.

Lemma applied_pair_reads_back_witness :
  let w' := (applySearchResult sample_result (sample_page "" None)).2 in
  getBeforeCursor w' = (Normal (utf16 "hello "), w')
  /\ getAfterCursor w' = (Normal (utf16 "world"), w').
Proof.
  destruct (applied_pair_reads_back (sample_page "" None) 1%positive
              (sample_el "") sample_result (utf16 "hello ") (utf16 "world")
              eq_refl eq_refl eq_refl)
    as (before & after & Hb & Ha & _ & Hplain & _).
  destruct Hplain as [-> ->]; [by apply (bool_decide_unpack _) |].
  split; [exact Hb | exact Ha].
Defined.

Lemma cursor_edges_witness :
  let w := sample_page "" None in
  getBeforeCursor w = (Normal (utf16 "hello"), w)
  /\ getAfterCursor w = (Normal [], w).
Proof.
  apply (proj1 (proj2 (cursor_edges (sample_page "" None) 1%positive
                         (sample_el "") eq_refl eq_refl))).
  simpl. lia.
Defined.

Lemma getCursorOffset_undefined_iff_witness :
  let S := sample_services None handles_enter in
  let w := sample_page "rtl" None in
  exists r,
    @getCursorOffset S w = (Normal r, w)
    /\ (r = None <-> "rtl" = "rtl" /\ documentElement w = None).
Proof.
  intros S w.
  apply (@getCursorOffset_undefined_iff S w 1%positive (sample_el "rtl"));
    reflexivity.
Defined.
